(** * The posts page (src/app/page.tsx)

    The page is one client-side React component, [Home].  It holds three
    pieces of state (the posts, a loading flag and an error), fetches the
    posts once when it is mounted, and renders one of four pieces of markup.

    The source file carries two revisions of the page one after the other.
    Both are embedded here, [Rev1] (lines 1-82) and [Rev2] (lines 83-194);
    [Rev2] is the later one (its comments record what it changed). *)

From Stdlib Require Import String Ascii NArith ZArith List Bool DecimalString Lia.
From Stdlib Require DecimalN DecimalPos.
From ExtLib Require Import Structures.Monad Structures.MonadState Structures.MonadExc.
From ExtLib Require Import Data.Monads.StateMonad Data.Monads.EitherMonad.
Import ListNotations.
Import MonadNotation.
Local Open Scope monad_scope.
Local Open Scope string_scope.

Set Implicit Arguments.
Set Warnings "-register-all".

(** ** JavaScript values the page computes with *)

(** [string | null] and [string | undefined] are both [option string]: the
    page only ever tests such a value for truthiness or interpolates it. *)
Definition truthy (v : option string) : bool :=
  match v with
  | None => false
  | Some s => negb (s =? "")
  end.

(** [a || b] where [a : string | undefined] and [b : string]. *)
Definition or_else (a : option string) (b : string) : string :=
  match a with
  | Some s => if s =? "" then b else s
  | None => b
  end.

(** Interpolation of a number that is a non-negative integer, as in
    [`${response.status}`]. *)
Definition String_of_number (n : N) : string :=
  NilZero.string_of_uint (N.to_uint n).

(** [xs.map((x, index) => f x index)]. *)
Fixpoint map_from {A B} (i : nat) (f : A -> nat -> B) (xs : list A) : list B :=
  match xs with
  | [] => []
  | x :: xs' => f x i :: map_from (S i) f xs'
  end.

Definition map_indexed {A B} (f : A -> nat -> B) (xs : list A) : list B :=
  map_from 0 f xs.

(** ** The data model: [interface Post] (lines 6-17 and 90-101) *)

Record Post := {
  id : Z;                     (* id: number *)
  title : string;
  slug : string;
  content : string;
  excerpt : string;
  imageUrl : option string;   (* imageUrl?: string *)
  published : bool;
  createdAt : string;
  updatedAt : string;
  tags : list string
}.

(** The declaration itself, member by member: name, declared type and
    whether the member carries the [?] mark. *)
Inductive TsType := TsNumber | TsString | TsBoolean | TsArray (elem : TsType).

Record Member := { member_name : string; member_type : TsType; optional : bool }.

Definition interface_Post : list Member := [
  {| member_name := "id";        member_type := TsNumber;         optional := false |};
  {| member_name := "title";     member_type := TsString;         optional := false |};
  {| member_name := "slug";      member_type := TsString;         optional := false |};
  {| member_name := "content";   member_type := TsString;         optional := false |};
  {| member_name := "excerpt";   member_type := TsString;         optional := false |};
  {| member_name := "imageUrl";  member_type := TsString;         optional := true  |};
  {| member_name := "published"; member_type := TsBoolean;        optional := false |};
  {| member_name := "createdAt"; member_type := TsString;         optional := false |};
  {| member_name := "updatedAt"; member_type := TsString;         optional := false |};
  {| member_name := "tags";      member_type := TsArray TsString; optional := false |}
].

(** What a declared type denotes; an optional member may be absent. *)
Fixpoint denote (t : TsType) : Type :=
  match t with
  | TsNumber => Z
  | TsString => string
  | TsBoolean => bool
  | TsArray e => list (denote e)
  end.

Definition denote_member (m : Member) : Type :=
  if optional m then option (denote (member_type m)) else denote (member_type m).

(** A value for every member of a declaration, in declaration order. *)
Fixpoint Members (ms : list Member) : Type :=
  match ms with
  | [] => unit
  | m :: ms' => (denote_member m * Members ms')%type
  end.

Definition members_of_Post (p : Post) : Members interface_Post :=
  (id p, (title p, (slug p, (content p, (excerpt p, (imageUrl p,
   (published p, (createdAt p, (updatedAt p, (tags p, tt)))))))))).

Definition Post_of_members (v : Members interface_Post) : Post :=
  let '(i, (t, (s, (c, (e, (u, (p, (ca, (ua, (tg, _)))))))))) := v in
  {| id := i; title := t; slug := s; content := c; excerpt := e; imageUrl := u;
     published := p; createdAt := ca; updatedAt := ua; tags := tg |}.

(** ** Markup *)

Inductive PropValue :=
| PStr (s : string)
| PNum (n : Z)
| PBool (b : bool).

(** What a component returns.  [Nothing] is a child that renders nothing
    ([undefined], from [cond && <x/>] with [cond] undefined); an array child
    is spliced into its parent's children. *)
Inductive Node :=
| Text (s : string)
| Nothing
| Element (tag : string) (props : list (string * PropValue)) (children : list Node).

Definition className (c : string) : string * PropValue := ("className", PStr c).

(** [{cond && node}], with [cond : string | undefined]: the value of [cond]
    itself when it is falsy, the node (which may use [cond]) otherwise. *)
Definition and_then (cond : option string) (node : string -> Node) : Node :=
  match cond with
  | None => Nothing
  | Some s => if s =? "" then Text s else node s
  end.

(** [{v}], with [v : string | null]. *)
Definition text_child (v : option string) : Node :=
  match v with
  | None => Nothing
  | Some s => Text s
  end.

(** *** Queries on markup, in document order *)

Fixpoint descendants (n : Node) : list Node :=
  n :: match n with
       | Element _ _ cs => flat_map descendants cs
       | _ => []
       end.

Fixpoint textContent (n : Node) : string :=
  match n with
  | Text s => s
  | Nothing => ""
  | Element _ _ cs => fold_right (fun c acc => textContent c ++ acc) "" cs
  end.

Definition has_tag (t : string) (n : Node) : bool :=
  match n with
  | Element t' _ _ => t' =? t
  | _ => false
  end.

Fixpoint prop (name : string) (ps : list (string * PropValue)) : option PropValue :=
  match ps with
  | [] => None
  | (k, v) :: ps' => if k =? name then Some v else prop name ps'
  end.

Definition class_of (n : Node) : option string :=
  match n with
  | Element _ ps _ =>
      match prop "className" ps with
      | Some (PStr c) => Some c
      | _ => None
      end
  | _ => None
  end.

Definition has_class (c : string) (n : Node) : bool :=
  match class_of n with
  | Some c' => c' =? c
  | None => false
  end.

Definition by_tag (t : string) (n : Node) : list Node :=
  filter (has_tag t) (descendants n).

Definition by_class (c : string) (n : Node) : list Node :=
  filter (has_class c) (descendants n).

(** ** The platform: network, build-time configuration, locale *)

Record Request := { method : string; url : string }.

(** What [response.json()] settles to: it rejects with an error (a
    [SyntaxError] when the body is not JSON), or resolves to the value the
    page declares as [Post[]]. *)
Inductive Json :=
| JsonRejects (message : string)
| JsonResolves (data : list Post).

Record Response := { status : N; body : Json }.

(** [response.ok]: the status is in the range 200-299. *)
Definition ok (r : Response) : bool :=
  ((200 <=? status r) && (status r <=? 299))%N.

(** What [fetch(url)] settles to: it rejects with a [TypeError] when no
    response arrives, and resolves to the response otherwise, whatever its
    status. *)
Inductive Fetched :=
| FetchRejects (message : string)
| FetchResolves (response : Response).

Record Platform := {
  network : Request -> Fetched;
  NEXT_PUBLIC_BACKEND_URL : option string;   (* process.env.NEXT_PUBLIC_BACKEND_URL *)
  toLocaleDateString : string -> string      (* new Date(s).toLocaleDateString() *)
}.

(** ** The page instance *)

(** The three [useState] cells of [Home]. *)
Record State := { posts : list Post; loading : bool; error : option string }.

(** [useState<Post[]>([])], [useState(true)], [useState<string | null>(null)]. *)
Definition initialState : State :=
  {| posts := []; loading := true; error := None |}.

(** A page instance: its state, the dependency list each effect last ran
    with ([None] before the first render), and the requests it has issued,
    oldest first. *)
Record Page := {
  cells : State;
  effect_deps : option (list string);
  issued : list Request
}.

Definition pageLoad : Page :=
  {| cells := initialState; effect_deps := None; issued := [] |}.

(** A thrown value: an instance of [Error] with its message, or any other
    value with its [message] property ([None] when it has none). *)
Inductive Thrown :=
| ErrorInstance (message : string)
| NonError (message : option string).

(** Code that runs against a page and may throw.  What it did to the page
    before throwing stays done. *)
Definition Async := eitherT Thrown (state Page).

Definition run {A} (c : Async A) (pg : Page) : (Thrown + A) * Page :=
  runState (unEitherT c) pg.

Definition update (f : State -> State) : Async unit :=
  modify (fun pg => {| cells := f (cells pg);
                       effect_deps := effect_deps pg;
                       issued := issued pg |}) ;;
  ret tt.

Definition setPosts (data : list Post) : Async unit :=
  update (fun st => {| posts := data; loading := loading st; error := error st |}).

Definition setLoading (b : bool) : Async unit :=
  update (fun st => {| posts := posts st; loading := b; error := error st |}).

Definition setError (e : option string) : Async unit :=
  update (fun st => {| posts := posts st; loading := loading st; error := e |}).

(** [await fetch(url)]: the request is a GET (no init argument). *)
Definition fetch (pf : Platform) (u : string) : Async Response :=
  let rq := {| method := "GET"; url := u |} in
  modify (fun pg => {| cells := cells pg;
                       effect_deps := effect_deps pg;
                       issued := issued pg ++ [rq] |}) ;;
  match network pf rq with
  | FetchRejects m => raise (ErrorInstance m)
  | FetchResolves r => ret r
  end.

(** [await response.json()]. *)
Definition json (r : Response) : Async (list Post) :=
  match body r with
  | JsonRejects m => raise (ErrorInstance m)
  | JsonResolves d => ret d
  end.

(** [try { c } finally { f }]: [f] runs whether or not [c] threw. *)
Definition finally {A} (c : Async A) (f : Async unit) : Async A :=
  mkEitherT (r <- unEitherT c ;;
             r' <- unEitherT f ;;
             ret (match r' with
                  | inl e => inl e
                  | inr _ => r
                  end)).

(** Whether two dependency lists hold the same values. *)
Fixpoint same_deps (prev next : list string) : bool :=
  match prev, next with
  | [], [] => true
  | a :: prev', b :: next' => (a =? b) && same_deps prev' next'
  | _, _ => false
  end.

(** Whether an effect with dependency list [deps] has to run with this
    render: always with the first, later only when a dependency changed. *)
Definition due (deps : list string) (pg : Page) : bool :=
  match effect_deps pg with
  | None => true
  | Some prev => negb (same_deps prev deps)
  end.

(** [useEffect(effect, deps)].  The promise the effect starts is not
    awaited and what it settles to is dropped; the page is next rendered
    when it has settled. *)
Definition useEffect (effect : Async unit) (deps : list string) : state Page unit :=
  pg <- get ;;
  if due deps pg then
    put {| cells := cells pg; effect_deps := Some deps; issued := issued pg |} ;;
    _ <- unEitherT effect ;;
    ret tt
  else ret tt.

(** [const [x, setX] = useState(...)]: the current value of the cell. *)
Definition useState {A} (cell : State -> A) : state Page A :=
  pg <- get ;; ret (cell (cells pg)).

(** [err.message], for [err : any]. *)
Definition message_of (err : Thrown) : option string :=
  match err with
  | ErrorInstance m => Some m
  | NonError m => m
  end.

(** ** First revision (lines 1-82) *)

Module Rev1.
Section Page.
Variable pf : Platform.

(** Lines 25-41. *)
Definition fetchPosts : Async unit :=
  finally
    (catch
       (response <- fetch pf "http://localhost:8080/api/posts" ;;
        (if negb (ok response)
         then raise (ErrorInstance
                       ("HTTP error! status: " ++ String_of_number (status response)))
         else ret tt) ;;
        data <- json response ;;
        setPosts data)
       (fun err => setError (message_of err)))
    (setLoading false).

(** Line 46. *)
Definition LoadingMessage : Node :=
  Element "p" [className "text-center text-gray-500"] [Text "Loading posts..."].

(** Line 47. *)
Definition ErrorMessage (error : option string) : Node :=
  Element "p" [className "text-center text-red-500"]
    [Text "Error: "; text_child error].

(** Line 48. *)
Definition EmptyMessage : Node :=
  Element "p" [className "text-center text-gray-500"] [Text "No posts found."].

Definition card_class : string :=
  "bg-white p-6 rounded-lg shadow-md border border-gray-200".

(** Lines 62-77: the body of [posts.map((post) => ...)]. *)
Definition PostCard (post : Post) : Node :=
  Element "div" [("key", PNum (id post)); className card_class]
    [ and_then (imageUrl post) (fun src =>
        Element "img" [("src", PStr src); ("alt", PStr (title post));
                       className "w-full h-40 object-cover rounded-md mb-4"] []);
      Element "h2" [className "text-2xl font-semibold text-gray-900 mb-2"]
        [Text (title post)];
      Element "p" [className "text-gray-700 text-sm mb-4"] [Text (excerpt post)];
      Element "div" [className "flex flex-wrap gap-2"]
        (map_indexed (fun tag index =>
           Element "span"
             [("key", PNum (Z.of_nat index));
              className "bg-blue-100 text-blue-800 text-xs font-medium px-2.5 py-0.5 rounded-full"]
             [Text tag]) (tags post));
      Element "p" [className "text-xs text-gray-500 mt-4"]
        [Text "Published: "; Text (toLocaleDateString pf (createdAt post))] ].

(** Lines 51-81. *)
Definition PostList (posts : list Post) : Node :=
  Element "main" [className "flex min-h-screen flex-col items-center justify-center p-24"]
    [ Element "h1" [className "text-4xl font-bold text-center text-gray-800 mb-8"]
        [Text "Welcome to My Profile Site (Frontend)!"];
      Element "p" [className "text-lg text-gray-600 mt-4 mb-8"]
        [Text "These posts are fetched from my Java Spring Boot Backend:"];
      Element "div"
        [className "grid grid-cols-1 md:grid-cols-2 lg:grid-cols-3 gap-8 w-full max-w-4xl"]
        (map PostCard posts) ].

(** Lines 19-82: one call of the component. *)
Definition Home : state Page Node :=
  posts <- useState posts ;;
  loading <- useState loading ;;
  error <- useState error ;;
  useEffect fetchPosts [] ;;
  if loading : bool then ret LoadingMessage
  else if truthy error then ret (ErrorMessage error)
  else if Nat.eqb (length posts) 0 then ret EmptyMessage
  else ret (PostList posts).
End Page.
End Rev1.

(** ** Second revision (lines 83-194) *)

Module Rev2.
Section Page.
Variable pf : Platform.

(** Line 115. *)
Definition backendUrl : string :=
  or_else (NEXT_PUBLIC_BACKEND_URL pf) "http://localhost:8080".

(** Lines 110-135. *)
Definition fetchPosts : Async unit :=
  finally
    (catch
       (response <- fetch pf (backendUrl ++ "/api/posts") ;;
        (if negb (ok response)
         then raise (ErrorInstance
                       ("HTTP error! status: " ++ String_of_number (status response)))
         else ret tt) ;;
        data <- json response ;;
        setPosts data)
       (fun err =>
          match err with
          | ErrorInstance message => setError (Some message)
          | NonError _ => setError (Some "An unknown error occurred.")
          end))
    (setLoading false).

(** Line 141. *)
Definition LoadingMessage : Node :=
  Element "p" [className "text-center text-gray-500 text-xl mt-20"]
    [Text "Loading posts from backend..."].

(** Line 142. *)
Definition ErrorMessage (error : option string) : Node :=
  Element "p" [className "text-center text-red-500 text-xl mt-20"]
    [Text "Error fetching data: "; text_child error].

(** Line 143. *)
Definition EmptyMessage : Node :=
  Element "p" [className "text-center text-gray-500 text-xl mt-20"]
    [Text "No posts found yet. Add some via the backend API!"].

Definition card_class : string :=
  "bg-white p-6 rounded-xl shadow-lg border border-gray-100 transform transition-transform duration-300 hover:scale-105 hover:shadow-xl".

(** Lines 158-186: the body of [posts.map((post) => ...)]. *)
Definition PostCard (post : Post) : Node :=
  Element "div" [("key", PNum (id post)); className card_class]
    [ and_then (imageUrl post) (fun src =>
        Element "Image" [("src", PStr src); ("alt", PStr (title post));
                         ("width", PNum 600); ("height", PNum 300);
                         className "w-full h-48 object-cover rounded-lg mb-4 border border-gray-200";
                         ("unoptimized", PBool true)] []);
      Element "h3" [className "text-2xl font-semibold text-gray-900 mb-2"]
        [Text (title post)];
      Element "p" [className "text-gray-700 text-base mb-4 line-clamp-3"]
        [Text (excerpt post)];
      Element "div" [className "flex flex-wrap gap-2 mb-4"]
        (map_indexed (fun tag index =>
           Element "span"
             [("key", PNum (Z.of_nat index));
              className "bg-blue-50 text-blue-700 text-xs font-medium px-3 py-1 rounded-full border border-blue-200"]
             [Text tag]) (tags post));
      Element "p" [className "text-sm text-gray-500"]
        [Text "Published: "; Text (toLocaleDateString pf (createdAt post))];
      Element "a"
        [("href", PStr ("/blog/" ++ slug post));
         className "block mt-4 text-blue-600 hover:text-blue-800 font-medium transition-colors duration-200"]
        [Text "Read More →"] ].

(** Lines 145-193. *)
Definition PostList (posts : list Post) : Node :=
  Element "main"
    [className "flex min-h-screen flex-col items-center p-8 md:p-12 lg:p-24 bg-gray-50 font-sans"]
    [ Element "h1"
        [className "text-4xl md:text-5xl font-extrabold text-center text-gray-900 mb-8 rounded-xl p-6 bg-white shadow-lg border border-blue-100"]
        [Text "My Full-Stack Profile Site"];
      Element "p" [className "text-lg md:text-xl text-gray-700 text-center mb-12 max-w-2xl"]
        [Text "Content dynamically loaded from a Java Spring Boot Backend."];
      Element "section" [className "w-full max-w-6xl"]
        [ Element "h2" [className "text-3xl font-bold text-gray-800 mb-6 text-center"]
            [Text "Latest Blog Posts"];
          Element "div" [className "grid grid-cols-1 md:grid-cols-2 lg:grid-cols-3 gap-8"]
            (map PostCard posts) ] ].

(** Lines 103-194: one call of the component. *)
Definition Home : state Page Node :=
  posts <- useState posts ;;
  loading <- useState loading ;;
  error <- useState error ;;
  useEffect fetchPosts [] ;;
  if loading : bool then ret LoadingMessage
  else if truthy error then ret (ErrorMessage error)
  else if Nat.eqb (length posts) 0 then ret EmptyMessage
  else ret (PostList posts).
End Page.
End Rev2.

(** ** The page, whichever revision *)

Inductive Revision := First | Second.

Section Revisions.
Variable r : Revision.
Variable pf : Platform.

Definition fetchPosts : Async unit :=
  match r with First => Rev1.fetchPosts pf | Second => Rev2.fetchPosts pf end.

Definition Home : state Page Node :=
  match r with First => Rev1.Home pf | Second => Rev2.Home pf end.

Definition LoadingMessage : Node :=
  match r with First => Rev1.LoadingMessage | Second => Rev2.LoadingMessage end.

Definition ErrorMessage (error : option string) : Node :=
  match r with First => Rev1.ErrorMessage error | Second => Rev2.ErrorMessage error end.

Definition EmptyMessage : Node :=
  match r with First => Rev1.EmptyMessage | Second => Rev2.EmptyMessage end.

Definition PostCard (post : Post) : Node :=
  match r with First => Rev1.PostCard pf post | Second => Rev2.PostCard pf post end.

Definition PostList (posts : list Post) : Node :=
  match r with First => Rev1.PostList pf posts | Second => Rev2.PostList pf posts end.

(** The URL handed to [fetch] (lines 30 and 115-116). *)
Definition endpoint : string :=
  match r with
  | First => "http://localhost:8080/api/posts"
  | Second => Rev2.backendUrl pf ++ "/api/posts"
  end.

(** How the markup of a revision is recognised: the class of a card, and
    the elements that hold a card's title and image. *)
Definition card_class : string :=
  match r with First => Rev1.card_class | Second => Rev2.card_class end.

Definition heading_tag : string :=
  match r with First => "h2" | Second => "h3" end.

Definition image_tag : string :=
  match r with First => "img" | Second => "Image" end.

Definition post_cards (view : Node) : list Node := by_class card_class view.

Definition card_title (card : Node) : list string :=
  map textContent (by_tag heading_tag card).

Definition card_paragraphs (card : Node) : list string :=
  map textContent (by_tag "p" card).

Definition card_tags (card : Node) : list string :=
  map textContent (by_tag "span" card).

Definition card_images (card : Node) : list Node := by_tag image_tag card.

(** *** A page session *)

(** The page once loaded: rendered for the first time, the effect run and
    the fetch settled. *)
Definition loaded : Page := execState Home pageLoad.

(** [n] further renders of a page; the markup of each, and the page after. *)
Fixpoint renders (n : nat) (pg : Page) : list Node * Page :=
  match n with
  | O => ([], pg)
  | S n' =>
      let (v, pg') := runState Home pg in
      let (vs, pg'') := renders n' pg' in
      (v :: vs, pg'')
  end.

(** What the loaded page shows. *)
Definition view : Node := evalState Home loaded.
End Revisions.


Definition request (r : Revision) (pf : Platform) : Request :=
  {| method := "GET"; url := endpoint r pf |}.

(** How the request of a page load went: the message of the error thrown
    inside the [try] block, or the data. *)
Definition outcome (r : Revision) (pf : Platform) : string + list Post :=
  match network pf (request r pf) with
  | FetchRejects m => inl m
  | FetchResolves resp =>
      if ok resp then
        match body resp with
        | JsonRejects m => inl m
        | JsonResolves d => inr d
        end
      else inl ("HTTP error! status: " ++ String_of_number (status resp))
  end.

Definition settle (r : Revision) (pf : Platform) (st : State) : State :=
  match outcome r pf with
  | inl m => {| posts := posts st; loading := false; error := Some m |}
  | inr d => {| posts := d; loading := false; error := error st |}
  end.

(** The four pieces of markup [Home] can return. *)
Inductive Branch := BranchLoading | BranchError | BranchEmpty | BranchPosts.

Definition markup (r : Revision) (pf : Platform) (st : State) (b : Branch) : Node :=
  match b with
  | BranchLoading => LoadingMessage r
  | BranchError => ErrorMessage r (error st)
  | BranchEmpty => EmptyMessage r
  | BranchPosts => PostList r pf (posts st)
  end.

(** Which piece a given markup is. *)
Inductive Shows (r : Revision) (pf : Platform) : Node -> Branch -> Prop :=
| ShowsLoading : Shows r pf (LoadingMessage r) BranchLoading
| ShowsError e : Shows r pf (ErrorMessage r e) BranchError
| ShowsEmpty : Shows r pf (EmptyMessage r) BranchEmpty
| ShowsPosts ps : Shows r pf (PostList r pf ps) BranchPosts.

(** The order of the tests, as the specification words it: loading, then
    "error is set", then no posts. *)
Definition claimed_branch (st : State) : Branch :=
  if loading st then BranchLoading
  else match error st with
       | Some _ => BranchError
       | None => match posts st with
                 | [] => BranchEmpty
                 | _ :: _ => BranchPosts
                 end
       end.

(** The same order with the second test on a non-empty error string. *)
Definition branch (st : State) : Branch :=
  if loading st then BranchLoading
  else match error st with
       | Some (String _ _) => BranchError
       | _ => match posts st with
              | [] => BranchEmpty
              | _ :: _ => BranchPosts
              end
       end.

(** A load that failed the way the specification lists: a response outside
    200-299, or a body that does not parse. *)
Definition failed (r : Revision) (pf : Platform) : Prop :=
  exists resp,
    network pf (request r pf) = FetchResolves resp
    /\ (~ (200 <= status resp <= 299)%N \/ exists m, body resp = JsonRejects m).

(** "The same fixed message regardless of which failure occurred", as the
    specification words it. *)
Definition one_generic_error_message (r : Revision) : Prop :=
  exists fixed : Node, forall pf, failed r pf -> view r pf = fixed.

(** ** Sample data *)

Definition first_post : Post :=
  {| id := 1; title := "Hello"; slug := "hello"; content := "Hello, world.";
     excerpt := "A first post"; imageUrl := None; published := true;
     createdAt := "2024-05-01T10:00:00"; updatedAt := "2024-05-02T08:30:00";
     tags := ["java"; "spring"] |}.

Definition second_post : Post :=
  {| id := 2; title := "Pictures"; slug := "pictures"; content := "See below.";
     excerpt := "With an image"; imageUrl := Some "https://img.example.com/2.png";
     published := true;
     createdAt := "2024-06-01T10:00:00"; updatedAt := "2024-06-01T10:00:00";
     tags := [] |}.

(** A backend at [base] that answers every request to [base ++ "/api/posts"]
    with [resp]; nothing else is reachable. *)
Definition backend (base : string) (resp : Response) : Request -> Fetched :=
  fun rq =>
    if url rq =? base ++ "/api/posts" then FetchResolves resp
    else FetchRejects "Failed to fetch".

Definition deployed (resp : Response) : Platform :=
  {| network := backend "https://api.example.com" resp;
     NEXT_PUBLIC_BACKEND_URL := Some "https://api.example.com";
     toLocaleDateString := fun s => substring 0 10 s |}.

Definition local_dev (resp : Response) : Platform :=
  {| network := backend "http://localhost:8080" resp;
     NEXT_PUBLIC_BACKEND_URL := None;
     toLocaleDateString := fun s => substring 0 10 s |}.

Definition two_posts : Response :=
  {| status := 200; body := JsonResolves [first_post; second_post] |}.

Definition no_posts : Response := {| status := 200; body := JsonResolves [] |}.

Definition not_found : Response :=
  {| status := 404; body := JsonRejects "Unexpected token < in JSON at position 0" |}.

Definition server_error : Response :=
  {| status := 500; body := JsonRejects "Unexpected end of JSON input" |}.

Definition html_body : Response :=
  {| status := 200; body := JsonRejects "Unexpected token < in JSON at position 0" |}.

(** A page that has been loaded and holds an empty error string. *)
Definition empty_error_page : Page :=
  {| cells := {| posts := []; loading := false; error := Some "" |};
     effect_deps := Some [];
     issued := [{| method := "GET"; url := "http://localhost:8080/api/posts" |}] |}.

(** ** Further queries and sample data *)

Definition props_of (n : Node) : list (string * PropValue) :=
  match n with
  | Element _ ps _ => ps
  | _ => []
  end.

Definition attribute (name : string) (n : Node) : option PropValue :=
  prop name (props_of n).

(** The fixed text the error paragraph starts with (lines 47 and 142). *)
Definition error_lead_in (r : Revision) : string :=
  match r with
  | First => "Error: "
  | Second => "Error fetching data: "
  end.

(** No backend can be reached. *)
Definition offline : Platform :=
  {| network := fun _ => FetchRejects "Failed to fetch";
     NEXT_PUBLIC_BACKEND_URL := None;
     toLocaleDateString := fun s => substring 0 10 s |}.

(** A backend whose failures carry no message. *)
Definition silent : Platform :=
  {| network := fun _ => FetchRejects "";
     NEXT_PUBLIC_BACKEND_URL := None;
     toLocaleDateString := fun s => substring 0 10 s |}.

(** [first_post] as an unpublished draft, edited later. *)
Definition draft_post : Post :=
  {| id := 1; title := "Hello"; slug := "hello"; content := "Work in progress.";
     excerpt := "A first post"; imageUrl := None; published := false;
     createdAt := "2024-05-01T10:00:00"; updatedAt := "2024-07-09T17:45:00";
     tags := ["java"; "spring"] |}.

(** The text of the empty-state paragraph (lines 48 and 143). *)
Definition empty_state_text (r : Revision) : string :=
  match r with
  | First => "No posts found."
  | Second => "No posts found yet. Add some via the backend API!"
  end.


(** A load that failed with message [m]: a response outside 200-299, whose
    message the page builds from the status, or a body that does not parse,
    whose error carries a message that is not empty. *)
Definition fails_with (r : Revision) (pf : Platform) (m : string) : Prop :=
  exists resp,
    network pf (request r pf) = FetchResolves resp
    /\ ((~ (200 <= status resp <= 299)%N
         /\ m = "HTTP error! status: " ++ String_of_number (status resp))
        \/ ((200 <= status resp <= 299)%N /\ body resp = JsonRejects m /\ m <> "")).

(** * Properties *)

(** ** Running the page *)

Lemma run_fetchPosts r pf pg :
  run (fetchPosts r pf) pg =
  (inr tt, {| cells := settle r pf (cells pg);
              effect_deps := effect_deps pg;
              issued := issued pg ++ [request r pf] |}).
Proof.
  unfold settle, outcome, request, run.
  destruct r; cbn;
    (destruct (network pf _) as [m | resp]; cbn; [reflexivity |]);
    (destruct (ok resp); cbn; [| reflexivity]);
    unfold json; destruct (body resp); reflexivity.
Qed.

Lemma run_useEffect effect deps pg :
  runState (useEffect effect deps) pg =
  (tt, if due deps pg
       then snd (run effect {| cells := cells pg;
                               effect_deps := Some deps;
                               issued := issued pg |})
       else pg).
Proof.
  unfold useEffect, run. cbn.
  destruct (due deps pg); cbn; [| reflexivity].
  destruct (runState (unEitherT effect) _); reflexivity.
Qed.

Lemma run_Home r pf pg :
  runState (Home r pf) pg =
  (markup r pf (cells pg) (branch (cells pg)),
   if due [] pg
   then {| cells := settle r pf (cells pg);
           effect_deps := Some [];
           issued := issued pg ++ [request r pf] |}
   else pg).
Proof.
  destruct r; unfold Home, Rev1.Home, Rev2.Home;
    cbn -[useEffect Rev1.fetchPosts Rev2.fetchPosts];
    rewrite run_useEffect;
    [ change (Rev1.fetchPosts pf) with (fetchPosts First pf)
    | change (Rev2.fetchPosts pf) with (fetchPosts Second pf) ];
    rewrite run_fetchPosts; cbn [snd cells effect_deps issued];
    destruct pg as [[ps l e] d i]; cbn [cells loading error posts];
    unfold branch, markup, LoadingMessage, ErrorMessage, EmptyMessage, PostList;
    cbn [cells loading error posts];
    destruct l, e as [[| c e] |], ps; cbn -[settle];
    destruct (due [] _); reflexivity.
Qed.

Lemma Home_markup r pf pg :
  evalState (Home r pf) pg = markup r pf (cells pg) (branch (cells pg)).
Proof. unfold evalState. rewrite run_Home. reflexivity. Qed.

Lemma loaded_eq r pf :
  loaded r pf = {| cells := settle r pf initialState;
                   effect_deps := Some [];
                   issued := [request r pf] |}.
Proof. unfold loaded, execState. rewrite run_Home. reflexivity. Qed.

Lemma Home_idle r pf pg :
  effect_deps pg = Some [] ->
  runState (Home r pf) pg = (markup r pf (cells pg) (branch (cells pg)), pg).
Proof.
  intros D. rewrite run_Home. unfold due. rewrite D. reflexivity.
Qed.

Lemma renders_idle r pf n pg :
  effect_deps pg = Some [] ->
  renders r pf n pg = (repeat (markup r pf (cells pg) (branch (cells pg))) n, pg).
Proof.
  intros D. induction n as [| n IH]; cbn [renders repeat].
  - reflexivity.
  - rewrite (Home_idle r pf pg D), IH. reflexivity.
Qed.

Lemma view_eq r pf :
  view r pf = markup r pf (settle r pf initialState)
                (branch (settle r pf initialState)).
Proof. unfold view. rewrite Home_markup, loaded_eq. reflexivity. Qed.

(** ** Queries on the markup of a card *)

Lemma append_empty (s : string) : s ++ "" = s.
Proof. induction s as [| c s IH]; cbn; [| rewrite IH]; reflexivity. Qed.

Lemma filter_spans_none (f : Node -> bool) (span : string -> nat -> Node) :
  (forall t j, filter f (descendants (span t j)) = []) ->
  forall ts i, filter f (flat_map descendants (map_from i span ts)) = [].
Proof.
  intros H ts. induction ts as [| t ts IH]; intros i; cbn [map_from flat_map].
  - reflexivity.
  - rewrite filter_app, H, IH. reflexivity.
Qed.

Lemma spans_texts (span : string -> nat -> Node) :
  (forall t j, map textContent (filter (has_tag "span") (descendants (span t j))) = [t]) ->
  forall ts i,
    map textContent
      (filter (has_tag "span") (flat_map descendants (map_from i span ts))) = ts.
Proof.
  intros H ts. induction ts as [| t ts IH]; intros i; cbn [map_from flat_map].
  - reflexivity.
  - rewrite filter_app, map_app, H, IH. reflexivity.
Qed.

Ltac open_card r p :=
  unfold post_cards, card_title, card_paragraphs, card_tags, card_images,
    by_class, by_tag, card_class, heading_tag, image_tag, PostCard,
    Rev1.PostCard, Rev2.PostCard, map_indexed, and_then;
  destruct r; destruct (imageUrl p) as [[| ? ?] |].

Lemma card_is_card r pf p :
  post_cards r (PostCard r pf p) = [PostCard r pf p].
Proof.
  open_card r p; cbn; rewrite filter_app;
    rewrite filter_spans_none by (intros; reflexivity); reflexivity.
Qed.

Lemma card_title_eq r pf p : card_title r (PostCard r pf p) = [title p].
Proof.
  open_card r p; cbn; rewrite filter_app;
    rewrite filter_spans_none by (intros; reflexivity);
    cbn; rewrite append_empty; reflexivity.
Qed.

Lemma card_paragraphs_eq r pf p :
  card_paragraphs (PostCard r pf p) =
  [excerpt p; "Published: " ++ toLocaleDateString pf (createdAt p)].
Proof.
  open_card r p; cbn; rewrite filter_app;
    rewrite filter_spans_none by (intros; reflexivity);
    cbn; rewrite !append_empty; reflexivity.
Qed.

Lemma card_tags_eq r pf p : card_tags (PostCard r pf p) = tags p.
Proof.
  open_card r p; cbn; rewrite filter_app, map_app;
    rewrite spans_texts by (intros; cbn; rewrite append_empty; reflexivity);
    cbn; apply app_nil_r.
Qed.

Lemma card_images_eq r pf p :
  card_images r (PostCard r pf p) =
  match imageUrl p with
  | Some (String c s) =>
      [Element (image_tag r)
         (match r with
          | First =>
              [("src", PStr (String c s)); ("alt", PStr (title p));
               className "w-full h-40 object-cover rounded-md mb-4"]
          | Second =>
              [("src", PStr (String c s)); ("alt", PStr (title p));
               ("width", PNum 600); ("height", PNum 300);
               className "w-full h-48 object-cover rounded-lg mb-4 border border-gray-200";
               ("unoptimized", PBool true)]
          end) []]
  | _ => []
  end.
Proof.
  open_card r p; cbn; rewrite filter_app;
    rewrite filter_spans_none by (intros; reflexivity); reflexivity.
Qed.

Lemma cards_of_cards r pf ps :
  filter (has_class (card_class r)) (flat_map descendants (map (PostCard r pf) ps)) =
  map (PostCard r pf) ps.
Proof.
  induction ps as [| p ps IH]; cbn [map flat_map].
  - reflexivity.
  - rewrite filter_app, IH.
    change (filter (has_class (card_class r)) (descendants (PostCard r pf p)))
      with (post_cards r (PostCard r pf p)).
    rewrite card_is_card. reflexivity.
Qed.

Lemma cards_of_PostList r pf ps :
  post_cards r (PostList r pf ps) = map (PostCard r pf) ps.
Proof.
  rewrite <- (cards_of_cards r pf ps).
  unfold post_cards, by_class, PostList, Rev1.PostList, Rev2.PostList.
  destruct r; cbn -[Rev1.PostCard Rev2.PostCard]; rewrite ?app_nil_r; reflexivity.
Qed.

Lemma cards_of_message r e :
  post_cards r (LoadingMessage r) = []
  /\ post_cards r (ErrorMessage r e) = []
  /\ post_cards r (EmptyMessage r) = [].
Proof. destruct r, e; repeat split; reflexivity. Qed.

(** The four pieces of markup are told apart by what they are. *)
Lemma Shows_one r pf v b1 b2 : Shows r pf v b1 -> Shows r pf v b2 -> b1 = b2.
Proof.
  intros H1 H2.
  destruct H1; inversion H2; try reflexivity; destruct r; discriminate.
Qed.

Lemma Shows_markup r pf st b : Shows r pf (markup r pf st b) b.
Proof. destruct b; constructor. Qed.

(** ** How a load went *)

Lemma ok_iff resp : ok resp = true <-> (200 <= status resp <= 299)%N.
Proof.
  unfold ok. rewrite andb_true_iff, !N.leb_le. reflexivity.
Qed.

Lemma outcome_data r pf resp data :
  network pf (request r pf) = FetchResolves resp ->
  (200 <= status resp <= 299)%N ->
  body resp = JsonResolves data ->
  outcome r pf = inr data.
Proof.
  intros Hn Hs Hb. unfold outcome. rewrite Hn.
  rewrite (proj2 (ok_iff resp) Hs), Hb. reflexivity.
Qed.

Lemma outcome_status r pf resp :
  network pf (request r pf) = FetchResolves resp ->
  ~ (200 <= status resp <= 299)%N ->
  outcome r pf = inl ("HTTP error! status: " ++ String_of_number (status resp)).
Proof.
  intros Hn Hs. unfold outcome. rewrite Hn.
  destruct (ok resp) eqn:E; [| reflexivity].
  apply ok_iff in E. contradiction.
Qed.

Lemma outcome_unparsable r pf resp m :
  network pf (request r pf) = FetchResolves resp ->
  (200 <= status resp <= 299)%N ->
  body resp = JsonRejects m ->
  outcome r pf = inl m.
Proof.
  intros Hn Hs Hb. unfold outcome. rewrite Hn.
  rewrite (proj2 (ok_iff resp) Hs), Hb. reflexivity.
Qed.

Lemma view_of_data r pf data :
  outcome r pf = inr data ->
  view r pf = match data with
              | [] => EmptyMessage r
              | _ :: _ => PostList r pf data
              end.
Proof.
  intros H. rewrite view_eq. unfold settle. rewrite H.
  destruct data; reflexivity.
Qed.

Lemma view_of_error r pf c m :
  outcome r pf = inl (String c m) ->
  view r pf = ErrorMessage r (Some (String c m)).
Proof.
  intros H. rewrite view_eq. unfold settle. rewrite H. reflexivity.
Qed.

Lemma issued_after_load r pf n :
  issued (snd (renders r pf n (loaded r pf))) = [request r pf].
Proof.
  rewrite renders_idle by (rewrite loaded_eq; reflexivity).
  rewrite loaded_eq. reflexivity.
Qed.

Lemma renders_from_load r pf n :
  renders r pf (S n) pageLoad =
  (LoadingMessage r :: fst (renders r pf n (loaded r pf)),
   snd (renders r pf n (loaded r pf))).
Proof.
  cbn [renders]. unfold loaded, execState.
  rewrite run_Home. cbn [snd].
  destruct (renders r pf n _). reflexivity.
Qed.

(** The first revision has no configuration to read: its request always goes
    to the local address. *)
Lemma first_revision_request pf :
  issued (loaded First pf) =
  [{| method := "GET"; url := "http://localhost:8080" ++ "/api/posts" |}].
Proof. rewrite loaded_eq. reflexivity. Qed.

(** Where the error is not the empty string, the order of the tests is the
    one the specification words. *)
Lemma branch_as_claimed st : error st <> Some "" -> branch st = claimed_branch st.
Proof.
  destruct st as [ps l [[| c e] |]]; intros H; [ contradiction | |]; reflexivity.
Qed.

Lemma branch_not_loading st : loading st = false -> branch st <> BranchLoading.
Proof.
  destruct st as [ps l [[| c e] |]]; cbn; intros L; subst l;
    destruct ps; discriminate.
Qed.

(** What the error paragraph is, read off the markup. *)
Lemma ErrorMessage_text r m :
  has_tag "p" (ErrorMessage r (Some m)) = true
  /\ textContent (ErrorMessage r (Some m)) = error_lead_in r ++ m.
Proof. destruct r; cbn; rewrite append_empty; split; reflexivity. Qed.

Lemma append_cancel (s a b : string) : s ++ a = s ++ b -> a = b.
Proof.
  induction s as [| c s IH]; cbn; intros E; [exact E |].
  injection E as E. apply IH. exact E.
Qed.

Lemma view_of_failure r pf m :
  fails_with r pf m -> view r pf = ErrorMessage r (Some m).
Proof.
  intros (resp & Hn & [[Hs Hm] | [Hs [Hb Hm]]]).
  - subst m. apply view_of_error. apply (outcome_status r pf Hn Hs).
  - destruct m as [| c m]; [contradiction |].
    apply view_of_error. apply (outcome_unparsable r pf Hn Hs Hb).
Qed.

(** * The claims *)

(** C1.  When the fetch succeeds and the body parses as an array of N posts,
    the view holds exactly N post cards, and the i-th card is the card of
    the i-th post of the array: it shows that post's title, excerpt and all
    its tags, in order. *)
Theorem fetched_posts_are_the_cards r pf resp data :
  network pf (request r pf) = FetchResolves resp ->
  (200 <= status resp <= 299)%N ->
  body resp = JsonResolves data ->
  post_cards r (view r pf) = map (PostCard r pf) data
  /\ length (post_cards r (view r pf)) = length data
  /\ forall i post,
       nth_error data i = Some post ->
       exists card,
         nth_error (post_cards r (view r pf)) i = Some card
         /\ card_title r card = [title post]
         /\ nth_error (card_paragraphs card) 0 = Some (excerpt post)
         /\ card_tags card = tags post.
Proof.
  intros Hn Hs Hb.
  assert (C : post_cards r (view r pf) = map (PostCard r pf) data).
  { rewrite (view_of_data r pf (outcome_data r pf Hn Hs Hb)).
    destruct data as [| p ps].
    - apply (cards_of_message r None).
    - apply cards_of_PostList. }
  rewrite C. split; [reflexivity |]. split; [apply length_map |].
  intros i post Hi. exists (PostCard r pf post).
  split; [apply map_nth_error; exact Hi |].
  rewrite card_title_eq, card_paragraphs_eq, card_tags_eq.
  repeat split; reflexivity.
Qed.

Lemma fetched_posts_are_the_cards_witness :
  network (deployed two_posts) (request Second (deployed two_posts))
    = FetchResolves two_posts
  /\ (200 <= status two_posts <= 299)%N
  /\ body two_posts = JsonResolves [first_post; second_post]
  /\ length (post_cards Second (view Second (deployed two_posts))) = 2.
Proof.
  assert (Hn : network (deployed two_posts) (request Second (deployed two_posts))
               = FetchResolves two_posts) by reflexivity.
  assert (Hs : (200 <= status two_posts <= 299)%N) by (cbn; lia).
  assert (Hb : body two_posts = JsonResolves [first_post; second_post]) by reflexivity.
  split; [exact Hn | split; [exact Hs | split; [exact Hb |]]].
  exact (proj1 (proj2 (fetched_posts_are_the_cards Second (deployed two_posts) Hn Hs Hb))).
Defined.

(** C2.  When the fetch resolves with a status outside 200-299, the view is
    the error message: one paragraph whose text is the lead-in followed by
    "HTTP error! status: " and the status.  It holds no post card, and the
    posts are still the initial empty array. *)
Theorem http_error_shows_error_and_no_cards r pf resp :
  network pf (request r pf) = FetchResolves resp ->
  ~ (200 <= status resp <= 299)%N ->
  view r pf = ErrorMessage r (Some ("HTTP error! status: "
                                      ++ String_of_number (status resp)))
  /\ has_tag "p" (view r pf) = true
  /\ textContent (view r pf)
     = error_lead_in r ++ "HTTP error! status: " ++ String_of_number (status resp)
  /\ Shows r pf (view r pf) BranchError
  /\ post_cards r (view r pf) = []
  /\ posts (cells (loaded r pf)) = posts initialState
  /\ posts (cells (loaded r pf)) = [].
Proof.
  intros Hn Hs.
  pose proof (outcome_status r pf Hn Hs) as Ho.
  assert (V : view r pf = ErrorMessage r (Some ("HTTP error! status: "
                                      ++ String_of_number (status resp))))
    by (apply view_of_error; exact Ho).
  rewrite V. split; [reflexivity |].
  split; [apply ErrorMessage_text |]. split; [apply ErrorMessage_text |].
  split; [constructor |].
  split; [apply cards_of_message |].
  rewrite loaded_eq. unfold settle. rewrite Ho. split; reflexivity.
Qed.

Lemma http_error_shows_error_and_no_cards_witness :
  network (local_dev not_found) (request First (local_dev not_found))
    = FetchResolves not_found
  /\ ~ (200 <= status not_found <= 299)%N
  /\ textContent (view First (local_dev not_found))
     = "Error: HTTP error! status: 404".
Proof.
  assert (Hn : network (local_dev not_found) (request First (local_dev not_found))
               = FetchResolves not_found) by reflexivity.
  assert (Hs : ~ (200 <= status not_found <= 299)%N) by (cbn; lia).
  split; [exact Hn | split; [exact Hs |]].
  exact (proj1 (proj2 (proj2
           (http_error_shows_error_and_no_cards First (local_dev not_found) Hn Hs)))).
Defined.

(** C3.  When the fetch succeeds and the body is the empty array, the view
    is the empty-state message: one paragraph with the "No posts found"
    text of the revision.  It holds no post card, and it is neither the
    loading nor the error message. *)
Theorem empty_array_shows_empty_message r pf resp :
  network pf (request r pf) = FetchResolves resp ->
  (200 <= status resp <= 299)%N ->
  body resp = JsonResolves [] ->
  view r pf = EmptyMessage r
  /\ has_tag "p" (view r pf) = true
  /\ textContent (view r pf) = empty_state_text r
  /\ post_cards r (view r pf) = []
  /\ view r pf <> LoadingMessage r
  /\ (forall e, view r pf <> ErrorMessage r e)
  /\ forall b, Shows r pf (view r pf) b -> b = BranchEmpty.
Proof.
  intros Hn Hs Hb.
  rewrite (view_of_data r pf (outcome_data r pf Hn Hs Hb)).
  split; [reflexivity |].
  split; [destruct r; reflexivity |].
  split; [destruct r; reflexivity |].
  split; [apply (cards_of_message r None) |].
  split; [destruct r; discriminate |].
  split; [intros e; destruct r; discriminate |].
  intros b Hb'. apply (Shows_one Hb'). constructor.
Qed.

Lemma empty_array_shows_empty_message_witness :
  network (deployed no_posts) (request Second (deployed no_posts))
    = FetchResolves no_posts
  /\ (200 <= status no_posts <= 299)%N
  /\ body no_posts = JsonResolves []
  /\ textContent (view Second (deployed no_posts))
     = "No posts found yet. Add some via the backend API!".
Proof.
  assert (Hn : network (deployed no_posts) (request Second (deployed no_posts))
               = FetchResolves no_posts) by reflexivity.
  assert (Hs : (200 <= status no_posts <= 299)%N) by (cbn; lia).
  assert (Hb : body no_posts = JsonResolves []) by reflexivity.
  split; [exact Hn | split; [exact Hs | split; [exact Hb |]]].
  exact (proj1 (proj2 (proj2
           (empty_array_shows_empty_message Second (deployed no_posts) Hn Hs Hb)))).
Defined.

(** C4, as stated, fails: the message shown is not one fixed message.  A
    404 and a 500 are both failures, and the page words them differently. *)
Lemma error_message_names_the_failure :
  failed Second (local_dev not_found)
  /\ failed Second (local_dev server_error)
  /\ view Second (local_dev not_found)
     = ErrorMessage Second (Some "HTTP error! status: 404")
  /\ view Second (local_dev server_error)
     = ErrorMessage Second (Some "HTTP error! status: 500")
  /\ ~ one_generic_error_message First
  /\ ~ one_generic_error_message Second.
Proof.
  assert (F : forall r, failed r (local_dev not_found)
                        /\ failed r (local_dev server_error)).
  { intros r; split; eexists; (split; [destruct r; reflexivity |]);
      left; cbn; lia. }
  split; [apply F |]. split; [apply F |].
  split; [reflexivity |]. split; [reflexivity |].
  split; intros [fixed H];
    match goal with
    | H : forall pf, failed ?r pf -> _ |- _ =>
        pose proof (eq_trans (H _ (proj1 (F r))) (eq_sym (H _ (proj2 (F r))))) as E
    end;
    vm_compute in E; discriminate E.
Qed.

(** C4, amended.  When the fetch resolves with a status outside 200-299, or
    with a body that does not parse and an error whose message is not
    empty, the view is one error paragraph in place of any content: its
    text is the fixed lead-in of the revision followed by the message of
    that failure (for a status, "HTTP error! status: " and the status).  So
    the text differs from one failure to another: a second failed load
    shows the same view exactly when its message is the same.  No card is
    shown, and however often the page is rendered afterwards the one
    request stays the only one. *)
Theorem failure_shows_its_own_message r pf resp m n :
  network pf (request r pf) = FetchResolves resp ->
  (~ (200 <= status resp <= 299)%N
   /\ m = "HTTP error! status: " ++ String_of_number (status resp))
  \/ ((200 <= status resp <= 299)%N /\ body resp = JsonRejects m /\ m <> "") ->
  view r pf = ErrorMessage r (Some m)
  /\ has_tag "p" (view r pf) = true
  /\ textContent (view r pf) = error_lead_in r ++ m
  /\ (forall pf' m', fails_with r pf' m' ->
        (view r pf' = view r pf <-> m' = m)
        /\ (textContent (view r pf') = textContent (view r pf) <-> m' = m))
  /\ Shows r pf (view r pf) BranchError
  /\ post_cards r (view r pf) = []
  /\ issued (snd (renders r pf n (loaded r pf))) = [request r pf].
Proof.
  intros Hn Hf.
  assert (V : view r pf = ErrorMessage r (Some m)).
  { apply view_of_failure. exists resp. split; assumption. }
  rewrite V. split; [reflexivity |].
  split; [apply ErrorMessage_text |]. split; [apply ErrorMessage_text |].
  split.
  { intros pf' m' F'. rewrite (view_of_failure F').
    assert (T : textContent (ErrorMessage r (Some m'))
                = textContent (ErrorMessage r (Some m)) -> m' = m).
    { rewrite !(proj2 (ErrorMessage_text r _)). apply append_cancel. }
    split; split.
    - intros E. apply T. rewrite E. reflexivity.
    - intros ->. reflexivity.
    - exact T.
    - intros ->. reflexivity. }
  split; [constructor |].
  split; [apply cards_of_message | apply issued_after_load].
Qed.

Lemma failure_shows_its_own_message_witness :
  network (deployed html_body) (request Second (deployed html_body))
    = FetchResolves html_body
  /\ ((200 <= status html_body <= 299)%N
      /\ body html_body = JsonRejects "Unexpected token < in JSON at position 0"
      /\ "Unexpected token < in JSON at position 0" <> "")
  /\ textContent (view Second (deployed html_body))
     = "Error fetching data: Unexpected token < in JSON at position 0".
Proof.
  assert (Hn : network (deployed html_body) (request Second (deployed html_body))
               = FetchResolves html_body) by reflexivity.
  assert (Hf : (200 <= status html_body <= 299)%N
               /\ body html_body = JsonRejects "Unexpected token < in JSON at position 0"
               /\ "Unexpected token < in JSON at position 0" <> "").
  { split; [cbn; lia | split; [reflexivity | discriminate]]. }
  split; [exact Hn | split; [exact Hf |]].
  exact (proj1 (proj2 (proj2
           (failure_shows_its_own_message Second (deployed html_body) 2 Hn
              (or_intror Hf))))).
Defined.



(** C6.  A page load issues exactly one request: the effect runs with the
    first render and with no later one, so after any number of renders the
    request of the first is still the only one. *)
Theorem one_request_per_page_load r pf n :
  issued (snd (renders r pf (S n) pageLoad)) = [request r pf]
  /\ length (issued (snd (renders r pf (S n) pageLoad))) = 1
  /\ issued (snd (renders r pf (S n) pageLoad)) = issued (loaded r pf).
Proof.
  rewrite renders_from_load. cbn [snd].
  rewrite issued_after_load, loaded_eq. repeat split.
Qed.

(** C7, as stated, fails: an error that is set to the empty string does not
    bring up the error message.  With loading over and no posts, the page
    shows the empty-state message. *)
Lemma empty_error_is_not_shown :
  error (cells empty_error_page) = Some ""
  /\ claimed_branch (cells empty_error_page) = BranchError
  /\ evalState (Home Second (local_dev no_posts)) empty_error_page
     = EmptyMessage Second
  /\ ~ Shows Second (local_dev no_posts)
         (evalState (Home Second (local_dev no_posts)) empty_error_page)
         (claimed_branch (cells empty_error_page)).
Proof.
  split; [reflexivity |]. split; [reflexivity |]. split; [reflexivity |].
  intros H.
  assert (E : claimed_branch (cells empty_error_page) = BranchEmpty).
  { apply (Shows_one H). rewrite Home_markup. apply Shows_markup. }
  discriminate E.
Qed.

(** C7, amended.  Whatever the state, one call of the component returns
    exactly one of four pieces of markup, told apart by what they are, and
    chosen in this order: the loading message if loading is true; else the
    error message if the error is a non-empty string; else the empty-state
    message if there are no posts; else the list of post cards. *)
Theorem render_picks_one_branch_in_order r pf pg :
  evalState (Home r pf) pg = markup r pf (cells pg) (branch (cells pg))
  /\ Shows r pf (evalState (Home r pf) pg) (branch (cells pg))
  /\ (forall b, Shows r pf (evalState (Home r pf) pg) b -> b = branch (cells pg))
  /\ (error (cells pg) <> Some "" -> branch (cells pg) = claimed_branch (cells pg)).
Proof.
  rewrite Home_markup. split; [reflexivity |].
  split; [apply Shows_markup |].
  split; [| apply branch_as_claimed].
  intros b Hb. apply (Shows_one Hb). apply Shows_markup.
Qed.

(** C8.  A Post is a flat record of exactly ten members: a numeric id, the
    title, slug, content and excerpt, an image URL, the published flag, the
    creation and update timestamps, and an ordered list of tag strings.
    Only the image URL is optional. *)
Theorem Post_is_its_ten_members :
  map member_name interface_Post
  = ["id"; "title"; "slug"; "content"; "excerpt"; "imageUrl"; "published";
     "createdAt"; "updatedAt"; "tags"]
  /\ map member_type interface_Post
     = [TsNumber; TsString; TsString; TsString; TsString; TsString; TsBoolean;
        TsString; TsString; TsArray TsString]
  /\ map member_name (filter optional interface_Post) = ["imageUrl"]
  /\ (forall p, Post_of_members (members_of_Post p) = p)
  /\ (forall v, members_of_Post (Post_of_members v) = v).
Proof.
  repeat split.
  - intros []; reflexivity.
  - intros v. cbn in v.
    destruct v as (i & t & s & c & e & u & p & ca & ua & tg & []). reflexivity.
Qed.

(** C9.  However the fetch went, once it has settled the loading flag is
    false, and no later render shows the loading message. *)
Theorem loading_is_over_once_settled r pf n :
  loading (cells (loaded r pf)) = false
  /\ loading (cells (snd (renders r pf n (loaded r pf)))) = false
  /\ Forall (fun v => v <> LoadingMessage r /\ ~ Shows r pf v BranchLoading)
       (fst (renders r pf n (loaded r pf))).
Proof.
  assert (L : loading (cells (loaded r pf)) = false).
  { rewrite loaded_eq. unfold settle. destruct (outcome r pf); reflexivity. }
  rewrite renders_idle by (rewrite loaded_eq; reflexivity).
  cbn [fst snd]. split; [exact L |]. split; [exact L |].
  apply Forall_forall. intros v Hv. apply repeat_spec in Hv. subst v.
  assert (B : branch (cells (loaded r pf)) <> BranchLoading).
  { apply branch_not_loading. exact L. }
  assert (S : ~ Shows r pf (markup r pf (cells (loaded r pf))
                              (branch (cells (loaded r pf)))) BranchLoading).
  { intros H. apply B. symmetry. apply (Shows_one H). apply Shows_markup. }
  split; [| exact S].
  intros E. apply S. rewrite E. constructor.
Qed.

(** C10.  A card holds an image element exactly when its post has an image
    URL that is present and not empty; with or without one, the card shows
    the post's title, excerpt and tags. *)
Theorem image_exactly_with_an_image_url r pf post :
  (card_images r (PostCard r pf post) <> []
   <-> exists src, imageUrl post = Some src /\ src <> "")
  /\ (forall img, In img (card_images r (PostCard r pf post)) ->
        exists src ps, imageUrl post = Some src
                       /\ img = Element (image_tag r) (("src", PStr src) :: ps) [])
  /\ card_title r (PostCard r pf post) = [title post]
  /\ nth_error (card_paragraphs (PostCard r pf post)) 0 = Some (excerpt post)
  /\ card_tags (PostCard r pf post) = tags post.
Proof.
  rewrite card_images_eq, card_title_eq, card_paragraphs_eq, card_tags_eq.
  split; [| split; [| repeat split]].
  - destruct (imageUrl post) as [[| c s] |]; split.
    + intros H. contradiction.
    + intros (src & E & Hs). inversion E. subst src. contradiction.
    + intros _. eexists. split; [reflexivity | discriminate].
    + intros _. discriminate.
    + intros H. contradiction.
    + intros (src & E & _). discriminate.
  - intros img Hi.
    destruct (imageUrl post) as [[| c s] |]; try contradiction.
    destruct Hi as [Hi | []]. subst img.
    destruct r; eexists; eexists; split; reflexivity.
Qed.

(** * Further properties of the page *)

(** ** The effect: [fetchPosts] *)

(** X1.  When [fetch] itself rejects (no response at all) with a message
    that is not empty, the loaded page shows the error paragraph with that
    message after the lead-in, holds no card, and its posts are still the
    initial empty array. *)
Theorem rejected_fetch_shows_its_message r pf m :
  network pf (request r pf) = FetchRejects m ->
  m <> "" ->
  view r pf = ErrorMessage r (Some m)
  /\ textContent (view r pf) = error_lead_in r ++ m
  /\ post_cards r (view r pf) = []
  /\ cells (loaded r pf) = {| posts := []; loading := false; error := Some m |}.
Proof.
  intros Hn Hm.
  assert (Ho : outcome r pf = inl m) by (unfold outcome; rewrite Hn; reflexivity).
  destruct m as [| c m]; [contradiction |].
  rewrite (view_of_error r pf Ho).
  split; [reflexivity |].
  split; [destruct r; cbn; rewrite append_empty; reflexivity |].
  split; [apply cards_of_message |].
  rewrite loaded_eq. unfold settle. rewrite Ho. reflexivity.
Qed.

Lemma rejected_fetch_shows_its_message_witness :
  network offline (request Second offline) = FetchRejects "Failed to fetch"
  /\ "Failed to fetch" <> ""
  /\ textContent (view Second offline) = "Error fetching data: Failed to fetch".
Proof.
  assert (Hn : network offline (request Second offline)
               = FetchRejects "Failed to fetch") by reflexivity.
  assert (Hm : "Failed to fetch" <> "") by discriminate.
  split; [exact Hn | split; [exact Hm |]].
  exact (proj1 (proj2 (rejected_fetch_shows_its_message Second offline Hn Hm))).
Defined.

(** X2.  [fetchPosts] never rejects, whatever the network does and whatever
    page it runs against: every error is caught.  It issues exactly one
    request, after those already issued, ends with loading false, and does
    not touch the bookkeeping of effects. *)
Theorem fetchPosts_always_resolves r pf pg :
  fst (run (fetchPosts r pf) pg) = inr tt
  /\ issued (snd (run (fetchPosts r pf) pg)) = (issued pg ++ [request r pf])%list
  /\ loading (cells (snd (run (fetchPosts r pf) pg))) = false
  /\ effect_deps (snd (run (fetchPosts r pf) pg)) = effect_deps pg.
Proof.
  rewrite run_fetchPosts. cbn [fst snd issued cells effect_deps].
  repeat split. unfold settle. destruct (outcome r pf); reflexivity.
Qed.

(** X3.  [fetchPosts] writes either the posts or the error, never both.
    On success (a response in 200-299 whose body resolves) it stores the
    body as the posts and leaves the error as it was: an earlier error is
    not cleared.  On a failure it stores the message of that failure as the
    error (for a rejected fetch or an unparsable body the message of the
    error thrown, for a status outside 200-299 the message built from the
    status) and leaves the posts as they were. *)
Theorem fetchPosts_writes_posts_or_error r pf pg :
  (forall resp data,
     network pf (request r pf) = FetchResolves resp ->
     ok resp = true ->
     body resp = JsonResolves data ->
     posts (cells (snd (run (fetchPosts r pf) pg))) = data
     /\ error (cells (snd (run (fetchPosts r pf) pg))) = error (cells pg))
  /\ (forall m,
        network pf (request r pf) = FetchRejects m ->
        posts (cells (snd (run (fetchPosts r pf) pg))) = posts (cells pg)
        /\ error (cells (snd (run (fetchPosts r pf) pg))) = Some m)
  /\ (forall resp,
        network pf (request r pf) = FetchResolves resp ->
        ok resp = false ->
        posts (cells (snd (run (fetchPosts r pf) pg))) = posts (cells pg)
        /\ error (cells (snd (run (fetchPosts r pf) pg)))
           = Some ("HTTP error! status: " ++ String_of_number (status resp)))
  /\ (forall resp m,
        network pf (request r pf) = FetchResolves resp ->
        ok resp = true ->
        body resp = JsonRejects m ->
        posts (cells (snd (run (fetchPosts r pf) pg))) = posts (cells pg)
        /\ error (cells (snd (run (fetchPosts r pf) pg))) = Some m).
Proof.
  rewrite run_fetchPosts. cbn [snd cells]. unfold settle, outcome.
  split; [| split; [| split]].
  - intros resp data Hn Hk Hb. rewrite Hn, Hk, Hb. split; reflexivity.
  - intros m Hn. rewrite Hn. split; reflexivity.
  - intros resp Hn Hk. rewrite Hn, Hk. split; reflexivity.
  - intros resp m Hn Hk Hb. rewrite Hn, Hk, Hb. split; reflexivity.
Qed.

(** X4.  After a page load, and after any number of further renders, the
    page never holds posts and an error together: either the error is null
    or the posts are the empty array. *)
Theorem loaded_page_has_posts_or_error r pf n :
  error (cells (snd (renders r pf n (loaded r pf)))) = None
  \/ posts (cells (snd (renders r pf n (loaded r pf)))) = [].
Proof.
  rewrite renders_idle by (rewrite loaded_eq; reflexivity).
  cbn [snd]. rewrite loaded_eq. cbn [cells]. unfold settle.
  destruct (outcome r pf); [right | left]; reflexivity.
Qed.

(** ** The session *)

(** X5.  A session of one or more renders shows the loading message first,
    whatever the network will answer, and then the same settled view at
    every later render; the page itself no longer changes. *)
Theorem session_is_loading_then_settled r pf n :
  fst (renders r pf (S n) pageLoad) = LoadingMessage r :: repeat (view r pf) n
  /\ snd (renders r pf (S n) pageLoad) = loaded r pf.
Proof.
  rewrite renders_from_load.
  rewrite renders_idle by (rewrite loaded_eq; reflexivity).
  cbn [fst snd]. rewrite view_eq, loaded_eq. split; reflexivity.
Qed.

Lemma Shows_markup_iff r pf st b0 b : Shows r pf (markup r pf st b0) b <-> b = b0.
Proof.
  split.
  - intros H. apply (Shows_one H). apply Shows_markup.
  - intros ->. apply Shows_markup.
Qed.

Lemma length_append (s t : string) :
  String.length (s ++ t) = String.length s + String.length t.
Proof. induction s as [| c s IH]; cbn; [| rewrite IH]; reflexivity. Qed.

(** ** The two revisions *)

(** X6.  With the configuration value unset or empty, the second revision
    loads exactly as the first: the same request, the same state afterwards,
    and the same one of the four pieces of markup (each in its own
    wording). *)
Theorem revisions_agree_without_configuration pf :
  NEXT_PUBLIC_BACKEND_URL pf = None \/ NEXT_PUBLIC_BACKEND_URL pf = Some "" ->
  loaded First pf = loaded Second pf
  /\ forall b, Shows First pf (view First pf) b <-> Shows Second pf (view Second pf) b.
Proof.
  intros H.
  assert (R : request First pf = request Second pf).
  { unfold request, endpoint, Rev2.backendUrl, or_else.
    destruct H as [-> | ->]; reflexivity. }
  assert (S : forall st, settle First pf st = settle Second pf st).
  { intros st. unfold settle, outcome. rewrite R. reflexivity. }
  split.
  - rewrite !loaded_eq, S, R. reflexivity.
  - intros b. rewrite !view_eq, !Shows_markup_iff, S. reflexivity.
Qed.

Lemma revisions_agree_without_configuration_witness :
  (NEXT_PUBLIC_BACKEND_URL (local_dev two_posts) = None
   \/ NEXT_PUBLIC_BACKEND_URL (local_dev two_posts) = Some "")
  /\ loaded First (local_dev two_posts) = loaded Second (local_dev two_posts).
Proof.
  assert (H : NEXT_PUBLIC_BACKEND_URL (local_dev two_posts) = None
              \/ NEXT_PUBLIC_BACKEND_URL (local_dev two_posts) = Some "")
    by (left; reflexivity).
  split; [exact H |].
  exact (proj1 (revisions_agree_without_configuration (local_dev two_posts) H)).
Defined.

(** X7.  The base URL of the second revision is never empty, so the request
    never goes to the bare path; a configuration value set to the empty
    string counts as unset and the request goes to the local address. *)
Theorem empty_configuration_counts_as_unset pf :
  Rev2.backendUrl pf <> ""
  /\ url (request Second pf) <> "/api/posts"
  /\ (NEXT_PUBLIC_BACKEND_URL pf = Some "" ->
      issued (loaded Second pf)
      = [{| method := "GET"; url := "http://localhost:8080/api/posts" |}]).
Proof.
  assert (B : Rev2.backendUrl pf <> "").
  { unfold Rev2.backendUrl, or_else.
    destruct (NEXT_PUBLIC_BACKEND_URL pf) as [[| c s] |]; discriminate. }
  split; [exact B |]. split.
  - unfold request, endpoint. cbn [url].
    destruct (Rev2.backendUrl pf) as [| c s]; [contradiction |].
    intros E. cbn in E. injection E as _ E.
    apply (f_equal String.length) in E. rewrite length_append in E.
    cbn in E. lia.
  - intros H. rewrite loaded_eq. unfold request, endpoint, Rev2.backendUrl.
    rewrite H. reflexivity.
Qed.

(** X8.  A failure whose error message is the empty string is not shown as
    an error: the error is stored, and the loaded page shows the empty-state
    message. *)
Theorem silent_failure_shows_the_empty_state r pf :
  network pf (request r pf) = FetchRejects ""
  \/ (exists resp, network pf (request r pf) = FetchResolves resp
                   /\ (200 <= status resp <= 299)%N
                   /\ body resp = JsonRejects "") ->
  cells (loaded r pf) = {| posts := []; loading := false; error := Some "" |}
  /\ view r pf = EmptyMessage r
  /\ textContent (view r pf) = empty_state_text r.
Proof.
  intros H.
  assert (Ho : outcome r pf = inl "").
  { destruct H as [Hn | (resp & Hn & Hs & Hb)].
    - unfold outcome. rewrite Hn. reflexivity.
    - apply (outcome_unparsable r pf Hn Hs Hb). }
  rewrite view_eq, loaded_eq. unfold settle. rewrite Ho.
  split; [reflexivity |]. split; [reflexivity |]. destruct r; reflexivity.
Qed.

Lemma silent_failure_shows_the_empty_state_witness :
  (network silent (request First silent) = FetchRejects ""
   \/ (exists resp, network silent (request First silent) = FetchResolves resp
                    /\ (200 <= status resp <= 299)%N
                    /\ body resp = JsonRejects ""))
  /\ view First silent = EmptyMessage First.
Proof.
  assert (H : network silent (request First silent) = FetchRejects ""
              \/ (exists resp, network silent (request First silent) = FetchResolves resp
                               /\ (200 <= status resp <= 299)%N
                               /\ body resp = JsonRejects ""))
    by (left; reflexivity).
  split; [exact H |].
  exact (proj1 (proj2 (silent_failure_shows_the_empty_state First silent H))).
Defined.

(** ** The card *)

(** X9.  A card depends on its post only through the id, title, excerpt,
    image URL, tags and creation date (and, in the second revision, the
    slug).  The content, the update date and the published flag are never
    read: an unpublished post is rendered like a published one. *)
Theorem card_ignores_unshown_fields r pf p q :
  id p = id q ->
  title p = title q ->
  excerpt p = excerpt q ->
  imageUrl p = imageUrl q ->
  tags p = tags q ->
  createdAt p = createdAt q ->
  (r = Second -> slug p = slug q) ->
  PostCard r pf p = PostCard r pf q.
Proof.
  destruct p, q; cbn. intros -> -> -> -> -> -> Hs.
  destruct r; unfold PostCard, Rev1.PostCard, Rev2.PostCard; cbn.
  - reflexivity.
  - rewrite (Hs eq_refl). reflexivity.
Qed.

Lemma card_ignores_unshown_fields_witness :
  published first_post <> published draft_post
  /\ content first_post <> content draft_post
  /\ PostCard Second offline first_post = PostCard Second offline draft_post.
Proof.
  split; [discriminate | split; [discriminate |]].
  exact (@card_ignores_unshown_fields Second offline first_post draft_post
           eq_refl eq_refl eq_refl eq_refl eq_refl eq_refl (fun _ => eq_refl)).
Defined.

(** X10.  In the second revision every card ends with one link, labelled
    "Read More" with an arrow, to "/blog/" followed by the post's slug; the
    first revision has no link. *)
Theorem read_more_links_to_the_slug pf p :
  by_tag "a" (PostCard First pf p) = []
  /\ map (attribute "href") (by_tag "a" (PostCard Second pf p))
     = [Some (PStr ("/blog/" ++ slug p))]
  /\ map textContent (by_tag "a" (PostCard Second pf p)) = ["Read More →"].
Proof.
  unfold by_tag, PostCard, Rev1.PostCard, Rev2.PostCard, map_indexed, and_then.
  destruct (imageUrl p) as [[| ? ?] |]; cbn; rewrite !filter_app;
    rewrite !filter_spans_none by (intros; reflexivity);
    repeat split.
Qed.

(** X11.  When a post has a non-empty image URL, the one image of its card
    has that URL as source and the post's title as alternative text. *)
Theorem image_carries_url_and_title r pf p c s :
  imageUrl p = Some (String c s) ->
  map (attribute "src") (card_images r (PostCard r pf p)) = [Some (PStr (String c s))]
  /\ map (attribute "alt") (card_images r (PostCard r pf p)) = [Some (PStr (title p))].
Proof.
  intros H. rewrite card_images_eq, H. destruct r; split; reflexivity.
Qed.

Lemma image_carries_url_and_title_witness :
  imageUrl second_post = Some "https://img.example.com/2.png"
  /\ map (attribute "alt") (card_images First (PostCard First offline second_post))
     = [Some (PStr "Pictures")].
Proof.
  split; [reflexivity |].
  exact (proj2 (@image_carries_url_and_title First offline second_post _ _ eq_refl)).
Defined.

Lemma NoDup_map_injective {A B} (f : A -> B) (l : list A) :
  (forall x y, f x = f y -> x = y) ->
  NoDup (map f l) <-> NoDup l.
Proof.
  intros Hf. induction l as [| a l IH]; cbn.
  - split; constructor.
  - split; intros H; inversion H as [| ? ? Hn Hd]; subst; constructor.
    + intros Hi. apply Hn. apply in_map. exact Hi.
    + apply IH. exact Hd.
    + intros Hi. apply in_map_iff in Hi. destruct Hi as (x & E & Hi).
      apply Hf in E. subst x. contradiction.
    + apply IH. exact Hd.
Qed.

Lemma span_keys (span : string -> nat -> Node) :
  (forall t j, map (attribute "key") (filter (has_tag "span") (descendants (span t j)))
               = [Some (PNum (Z.of_nat j))]) ->
  forall ts i,
    map (attribute "key")
      (filter (has_tag "span") (flat_map descendants (map_from i span ts)))
    = map (fun j => Some (PNum (Z.of_nat j))) (seq i (length ts)).
Proof.
  intros H ts. induction ts as [| t ts IH]; intros i; cbn [map_from flat_map length seq map].
  - reflexivity.
  - rewrite filter_app, map_app, H, IH. reflexivity.
Qed.

(** X12.  The keys of the cards of a post list are the ids of the posts, in
    order; they are pairwise distinct exactly when the ids are. *)
Theorem card_keys_are_the_post_ids r pf ps :
  map (attribute "key") (post_cards r (PostList r pf ps))
  = map (fun p => Some (PNum (id p))) ps
  /\ (NoDup (map (attribute "key") (post_cards r (PostList r pf ps)))
      <-> NoDup (map id ps)).
Proof.
  assert (K : map (attribute "key") (post_cards r (PostList r pf ps))
              = map (fun z => Some (PNum z)) (map id ps)).
  { rewrite cards_of_PostList, !map_map. apply map_ext.
    intros p. destruct r; reflexivity. }
  split.
  - rewrite K, map_map. reflexivity.
  - rewrite K. apply NoDup_map_injective. intros x y E. injection E. auto.
Qed.

(** X13.  The keys of the tag elements of a card are the positions
    0, 1, 2, ... of the tags, so they are pairwise distinct even when a tag
    occurs twice. *)
Theorem tag_keys_are_the_positions r pf p :
  map (attribute "key") (by_tag "span" (PostCard r pf p))
  = map (fun j => Some (PNum (Z.of_nat j))) (seq 0 (length (tags p)))
  /\ NoDup (map (attribute "key") (by_tag "span" (PostCard r pf p))).
Proof.
  assert (K : map (attribute "key") (by_tag "span" (PostCard r pf p))
              = map (fun j => Some (PNum (Z.of_nat j))) (seq 0 (length (tags p)))).
  { open_card r p; cbn; rewrite filter_app, map_app;
      rewrite span_keys by (intros; reflexivity);
      cbn; apply app_nil_r. }
  split; [exact K |]. rewrite K.
  apply NoDup_map_injective; [| apply seq_NoDup].
  intros x y E. injection E. apply Nat2Z.inj.
Qed.

(** ** The message of an HTTP error *)

Lemma String_of_number_injective n m :
  String_of_number n = String_of_number m -> n = m.
Proof.
  unfold String_of_number. intros E.
  assert (Nn : forall k, N.to_uint k <> Decimal.Nil).
  { intros [| q]; [discriminate | apply DecimalPos.Unsigned.to_uint_nonnil]. }
  apply (f_equal NilZero.uint_of_string) in E.
  rewrite !NilZero.usu in E by apply Nn.
  injection E. apply DecimalN.Unsigned.to_uint_inj.
Qed.

(** X14.  The error message tells the status: two loads that fail with
    different statuses outside 200-299 show different views. *)
Theorem different_statuses_show_different_messages r pf1 pf2 resp1 resp2 :
  network pf1 (request r pf1) = FetchResolves resp1 ->
  network pf2 (request r pf2) = FetchResolves resp2 ->
  ~ (200 <= status resp1 <= 299)%N ->
  ~ (200 <= status resp2 <= 299)%N ->
  status resp1 <> status resp2 ->
  view r pf1 <> view r pf2.
Proof.
  intros Hn1 Hn2 Hs1 Hs2 Hd E.
  rewrite (view_of_error r pf1 (outcome_status r pf1 Hn1 Hs1)) in E.
  rewrite (view_of_error r pf2 (outcome_status r pf2 Hn2 Hs2)) in E.
  apply Hd. apply String_of_number_injective.
  destruct r; cbn in E; injection E; auto.
Qed.

Lemma different_statuses_show_different_messages_witness :
  network (local_dev not_found) (request Second (local_dev not_found))
    = FetchResolves not_found
  /\ network (local_dev server_error) (request Second (local_dev server_error))
     = FetchResolves server_error
  /\ ~ (200 <= status not_found <= 299)%N
  /\ ~ (200 <= status server_error <= 299)%N
  /\ status not_found <> status server_error
  /\ view Second (local_dev not_found) <> view Second (local_dev server_error).
Proof.
  assert (Hn1 : network (local_dev not_found) (request Second (local_dev not_found))
                = FetchResolves not_found) by reflexivity.
  assert (Hn2 : network (local_dev server_error)
                  (request Second (local_dev server_error))
                = FetchResolves server_error) by reflexivity.
  assert (Hs1 : ~ (200 <= status not_found <= 299)%N) by (cbn; lia).
  assert (Hs2 : ~ (200 <= status server_error <= 299)%N) by (cbn; lia).
  assert (Hd : status not_found <> status server_error) by discriminate.
  split; [exact Hn1 | split; [exact Hn2 | split; [exact Hs1 |
    split; [exact Hs2 | split; [exact Hd |]]]]].
  exact (@different_statuses_show_different_messages Second
           (local_dev not_found) (local_dev server_error)
           not_found server_error Hn1 Hn2 Hs1 Hs2 Hd).
Defined.

Lemma spans_text (span : string -> nat -> Node) :
  (forall t j, textContent (span t j) = t) ->
  forall ts i,
    fold_right (fun c acc => textContent c ++ acc) "" (map_from i span ts)
    = fold_right append "" ts.
Proof.
  intros H ts. induction ts as [| t ts IH]; intros i; cbn [map_from fold_right].
  - reflexivity.
  - rewrite H, IH. reflexivity.
Qed.

(** X15.  The text of a card is the title, the excerpt, the tags one after
    the other, "Published: " with the creation date in the locale's form
    and, in the second revision, the label of the link.  An image adds no
    text, and nothing else of the post is shown. *)
Theorem card_text_is_title_excerpt_tags_date r pf p :
  textContent (PostCard r pf p)
  = title p ++ excerpt p ++ fold_right append "" (tags p)
    ++ "Published: " ++ toLocaleDateString pf (createdAt p)
    ++ match r with First => "" | Second => "Read More →" end.
Proof.
  unfold PostCard, Rev1.PostCard, Rev2.PostCard, map_indexed, and_then.
  destruct r; destruct (imageUrl p) as [[| ? ?] |]; cbn;
    rewrite spans_text by (intros; cbn; apply append_empty);
    rewrite !append_empty; reflexivity.
Qed.
